(** * One-hot encoding helper ([helpers/onehot_encode.py])

    A shallow embedding of [onehot_encode] and of the pandas operations it
    calls ([Series.unique], [DataFrame.drop], [DataFrame.__getitem__],
    [DataFrame.__setitem__], [pandas.get_dummies]), followed by the
    properties of the function.

    Frames are modelled with unique column labels, row-aligned columns and
    one kind of value per column (see [wf_frame]); the Python objects the
    function creates and mutates live in an explicit object store. *)

From stdpp Require Import list strings pretty sorting.

Local Open Scope string_scope.
Local Open Scope list_scope.

(** ** Cell values *)

(** A cell of a column.  [VFloat z] is the float64 whose value is the
    integer [z], for [z] of magnitude below [10^16] (the floats that Python
    prints as the digits of [z] followed by [.0]); the floats the function
    builds itself, [0.0] and [1.0], are among them.  [VNaN] is the float
    [NaN], the marker pandas uses for a missing value; the other markers
    ([None], [pd.NA], [NaT]), which Python prints differently, are not
    cells of the model. *)
Inductive value :=
  | VStr (s : string)
  | VInt (n : Z)
  | VBool (b : bool)
  | VFloat (whole : Z)
  | VNaN.

Global Instance value_eq_dec : EqDecision value.
Proof. solve_decision. Defined.

Abbreviation column := (list value).

(** A frame: its columns in order, each with its label. *)
Abbreviation DataFrame := (list (string * column)).

(** [f"{value}"]; [NaN] is printed [nan] *)
Definition stringify (v : value) : string :=
  match v with
  | VStr s => s
  | VInt n => pretty n
  | VBool true => "True"
  | VBool false => "False"
  | VFloat z => pretty z +:+ ".0"
  | VNaN => "nan"
  end.

(** [pandas.isna] / [pandas.notna] on a cell *)
Definition isna (v : value) : bool :=
  match v with VNaN => true | _ => false end.

Definition notna (v : value) : bool := negb (isna v).

(** ** Ordering of values (the order [get_dummies] sorts the levels by) *)

Inductive kind := KStr | KInt | KBool | KFloat | KNull.

Global Instance kind_eq_dec : EqDecision kind.
Proof. solve_decision. Defined.

Definition kind_of (v : value) : kind :=
  match v with
  | VStr _ => KStr
  | VInt _ => KInt
  | VBool _ => KBool
  | VFloat _ => KFloat
  | VNaN => KNull
  end.

Definition kind_rank (k : kind) : nat :=
  match k with
  | KBool => 0
  | KInt => 1
  | KFloat => 2
  | KStr => 3
  | KNull => 4
  end%nat.

(** Within a kind: numbers by value, [False < True], strings by code
    point.  Across kinds (which a well-formed column never compares) the
    kinds are ranked, only to make the relation total. *)
Definition value_le (a b : value) : Prop :=
  match a, b with
  | VStr s, VStr t => String.le s t
  | VInt m, VInt n => (m ≤ n)%Z
  | VBool x, VBool y => implb x y
  | VFloat x, VFloat y => (x ≤ y)%Z
  | _, _ => (kind_rank (kind_of a) ≤ kind_rank (kind_of b))%nat
  end.

Global Instance value_le_dec : RelDecision value_le.
Proof.
  intros a b. destruct a, b; simpl; apply _.
Defined.

(** ** Series operations *)

(** [Series.unique()]: the distinct values in order of first appearance;
    all missing values count as one value. *)
Fixpoint unique (data : column) : list value :=
  match data with
  | [] => []
  | v :: rest => v :: filter (λ w, w ≠ v) (unique rest)
  end.

(** The categories of the categorical that [get_dummies] builds from a
    column: the distinct non-missing values, sorted. *)
Definition levels (data : column) : list value :=
  merge_sort value_le (unique (filter (λ v, notna v = true) data)).

(** One dummy column of [_get_dummies_1d] with [dtype=float]: [1.0] on the
    rows that hold [level], [0.0] on the others (the rows of a missing
    value included, as [dummy_na] is left [False]). *)
Definition indicator (level : value) (data : column) : column :=
  (λ v, if decide (v = level) then VFloat 1 else VFloat 0) <$> data.

Definition get_dummies_1d (data : column) (prefix prefix_sep : string)
    : DataFrame :=
  (λ level, (prefix +:+ prefix_sep +:+ stringify level, indicator level data))
    <$> levels data.

(** ** Frame operations, on frame values *)

Definition labels (df : DataFrame) : list string := df.*1.

(** the column under a label *)
Fixpoint frame_get (df : DataFrame) (label : string) : option column :=
  match df with
  | [] => None
  | (l, col) :: rest =>
      if decide (l = label) then Some col else frame_get rest label
  end.

(** [drop(labels, axis=1, errors="ignore")]: absent labels are ignored *)
Definition frame_drop (df : DataFrame) (names : list string) : DataFrame :=
  filter (λ p, p.1 ∉ names) df.

(** [df[label] = col]: the column is replaced where it stands, or appended
    when the label is new *)
Fixpoint frame_set (df : DataFrame) (label : string) (col : column)
    : DataFrame :=
  match df with
  | [] => [(label, col)]
  | (l, old) :: rest =>
      if decide (l = label) then (l, col) :: rest
      else (l, old) :: frame_set rest label col
  end.

(** ** The object store and the monad of the function *)

Inductive error :=
  | KeyError (label : string)
  | InvalidRef.

Global Instance error_eq_dec : EqDecision error.
Proof. solve_decision. Defined.

(** A Python reference to a frame object is a position in the store. *)
Definition ref := nat.
Abbreviation heap := (list DataFrame).

Definition M (A : Type) : Type := heap → (error + A) * heap.

Global Instance M_ret : MRet M := λ A x h, (inr x, h).
Global Instance M_bind : MBind M := λ A B f m h,
  match m h with
  | (inr x, h') => f x h'
  | (inl e, h') => (inl e, h')
  end.

Definition raise {A} (e : error) : M A := λ h, (inl e, h).

Definition deref (r : ref) : M DataFrame := λ h,
  match h !! r with
  | Some data => (inr data, h)
  | None => (inl InvalidRef, h)
  end.

(** a new object, at a fresh reference *)
Definition alloc (data : DataFrame) : M ref := λ h,
  (inr (length h), h ++ [data]).

(** in-place update of an object *)
Definition store (r : ref) (data : DataFrame) : M unit := λ h,
  (inr (), <[r := data]> h).

(** [df[label]]; a missing label raises [KeyError] *)
Definition getitem (df : ref) (label : string) : M column :=
  data ← deref df;
  match frame_get data label with
  | Some col => mret col
  | None => raise (KeyError label)
  end.

(** [df.drop(labels, axis=1, errors="ignore")] returns a new frame *)
Definition drop (df : ref) (names : list string) : M ref :=
  data ← deref df;
  alloc (frame_drop data names).

(** [df[label] = col] mutates the frame [df] refers to *)
Definition setitem (df : ref) (label : string) (col : column) : M unit :=
  data ← deref df;
  store df (frame_set data label col).

(** The columns selected by [data[columns]]; the first missing label
    raises. *)
Fixpoint select (data : DataFrame) (columns : list string)
    : error + list column :=
  match columns with
  | [] => inr []
  | label :: rest =>
      match frame_get data label with
      | None => inl (KeyError label)
      | Some col =>
          match select data rest with
          | inl e => inl e
          | inr cols => inr (col :: cols)
          end
      end
  end.

(** [pd.get_dummies(df, prefix=prefix, columns=columns, dtype=float)]:
    a new frame made of the columns that are not encoded, in their order,
    followed by the dummy columns of each encoded column. *)
Definition get_dummies (df : ref) (prefix : string) (columns : list string)
    : M ref :=
  data ← deref df;
  match select data columns with
  | inl e => raise e
  | inr data_to_encode =>
      alloc (frame_drop data columns
             ++ mjoin ((λ col, get_dummies_1d col prefix "_")
                         <$> data_to_encode))
  end.

(** ** The function *)

Definition onehot_encode (df : ref) (column_name : string)
    : M (ref * list string) :=
  col ← getitem df column_name;
  let categories :=
    (λ value, column_name +:+ "_" +:+ stringify value) <$> unique col in
  (* remove the categorical variables *)
  df ← drop df categories;
  let temp_column_name := column_name +:+ "_Temp" in
  (* copy the data to the temp column *)
  col ← getitem df column_name;
  _ ← setitem df temp_column_name col;
  df ← get_dummies df column_name [temp_column_name];
  mret (df, categories).

(** The call as its caller sees it: the frame is the only object of the
    store, and the frame behind the returned reference is read back. *)
Definition encode (T : DataFrame) (column_name : string)
    : error + (DataFrame * list string) :=
  match onehot_encode 0%nat column_name [T] with
  | (inl e, _) => inl e
  | (inr (r, categories), h) =>
      match h !! r with
      | Some T' => inr (T', categories)
      | None => inl InvalidRef
      end
  end.

(** ** Well-formed frames *)

(** the number of rows of a frame that has a column *)
Definition nrows (df : DataFrame) : nat :=
  match df with
  | [] => 0
  | (_, col) :: _ => length col
  end.

(** the values of a column that are not missing are of one kind *)
Definition same_kind (data : column) : bool :=
  match filter (λ v, notna v = true) data with
  | [] => true
  | v :: rest => forallb (λ w, bool_decide (kind_of w = kind_of v)) rest
  end.

(** The frames of the model: unique labels, columns of one length, one
    kind of value per column. *)
Definition wf_frame (df : DataFrame) : Prop :=
  NoDup (labels df)
  ∧ Forall (λ p, length p.2 = nrows df ∧ same_kind p.2 = true) df.

Global Instance wf_frame_dec df : Decision (wf_frame df).
Proof. unfold wf_frame. apply _. Defined.

(** The pieces of the result, named for the statements below. *)

Definition category_name (column_name : string) (v : value) : string :=
  column_name +:+ "_" +:+ stringify v.

Definition categories_of (column_name : string) (col : column)
    : list string :=
  category_name column_name <$> unique col.

Definition temp_name (column_name : string) : string :=
  column_name +:+ "_Temp".

(** the columns of [T] that the call carries over *)
Definition kept (T : DataFrame) (column_name : string) (col : column)
    : DataFrame :=
  filter (λ p, (p.1 ∉ categories_of column_name col)
               ∧ p.1 ≠ temp_name column_name) T.

(** the generated columns, in the order the result has them *)
Definition dummies (column_name : string) (col : column) : DataFrame :=
  get_dummies_1d col column_name "_".

(** position of the first appearance of [v] in [data] *)
Fixpoint index_of (v : value) (data : column) : nat :=
  match data with
  | [] => 0
  | x :: rest => if decide (x = v) then 0 else S (index_of v rest)
  end.

(** ** Examples *)

(** the frame of the documentation's example *)
Definition T_color : DataFrame :=
  [("id", [VInt 1; VInt 2; VInt 3]);
   ("color", [VStr "red"; VStr "blue"; VStr "red"])].

(** a frame with a missing value in the column to encode *)
Definition T_null : DataFrame :=
  [("id", [VInt 1; VInt 2]);
   ("color", [VStr "red"; VNaN])].

(** a frame whose column to encode holds the string ["Temp"] *)
Definition T_size : DataFrame :=
  [("size", [VStr "Temp"; VStr "L"])].

(** a frame without rows *)
Definition T_empty : DataFrame :=
  [("id", []); ("color", [])].

(** a frame whose column to encode holds [NaN] only *)
Definition T_missing : DataFrame :=
  [("id", [VInt 1; VInt 2]);
   ("color", [VNaN; VNaN])].

(** a frame whose column to encode holds one value *)
Definition T_one : DataFrame :=
  [("id", [VInt 1; VInt 2]);
   ("color", [VStr "red"; VStr "red"])].

(** a frame that was encoded before and then edited by hand *)
Definition T_stale : DataFrame :=
  [("color_red", [VInt 7; VInt 8; VInt 9]);
   ("id", [VInt 1; VInt 2; VInt 3]);
   ("color", [VStr "red"; VStr "blue"; VStr "red"]);
   ("color_Temp", [VBool true; VBool false; VBool true])].

(** ** Strings *)

Lemma append_nonempty_ne (s t : string) : t ≠ "" → s +:+ t ≠ s.
Proof.
  intros Ht. induction s as [|a s IH]; simpl.
  - exact Ht.
  - intros [= H]. by apply IH.
Qed.

Lemma category_name_ne (c : string) (v : value) : category_name c v ≠ c.
Proof. unfold category_name. by apply append_nonempty_ne. Qed.

Lemma temp_name_ne (c : string) : temp_name c ≠ c.
Proof. unfold temp_name. by apply append_nonempty_ne. Qed.

Lemma category_name_temp (c : string) (v : value) :
  category_name c v = temp_name c ↔ stringify v = "Temp".
Proof.
  unfold category_name, temp_name. split.
  - intros H. change "_Temp" with ("_" +:+ "Temp") in H.
    apply (inj (String.app c)) in H. by apply (inj (String.app "_")) in H.
  - by intros ->.
Qed.

Lemma column_not_category (c : string) (col : column) :
  c ∉ categories_of c col.
Proof.
  unfold categories_of. intros (v & Hv & _)%list_elem_of_fmap.
  by destruct (category_name_ne c v).
Qed.

(** ** Frames *)

Lemma frame_get_None (df : DataFrame) (l : string) :
  frame_get df l = None ↔ l ∉ labels df.
Proof.
  unfold labels. induction df as [|[l0 c0] df IH]; simpl.
  - split; [intros _; apply not_elem_of_nil | done].
  - rewrite not_elem_of_cons. case_decide; subst.
    + split; [done | by intros [? _]].
    + rewrite IH. split; [by intros ? | by intros [_ ?]].
Qed.

Lemma frame_get_is_Some (df : DataFrame) (l : string) :
  is_Some (frame_get df l) ↔ l ∈ labels df.
Proof.
  rewrite <-not_eq_None_Some, frame_get_None.
  split; [apply dec_stable | by intros ? []].
Qed.

Lemma frame_get_elem_of (df : DataFrame) (l : string) (col : column) :
  frame_get df l = Some col → (l, col) ∈ df.
Proof.
  induction df as [|[l0 c0] df IH]; simpl; [done|].
  case_decide; subst.
  - intros [= ->]. apply list_elem_of_here.
  - intros Hg. apply list_elem_of_further. by apply IH.
Qed.

Lemma frame_get_filter (P : string * column → Prop)
    `{!∀ p, Decision (P p)} (df : DataFrame) (l : string) :
  (∀ col, P (l, col)) → frame_get (filter P df) l = frame_get df l.
Proof.
  intros HP. induction df as [|[l0 c0] df IH]; [done|].
  rewrite filter_cons. destruct (decide (P (l0, c0))) as [Hp|Hp]; simpl.
  - case_decide; [done | apply IH].
  - case_decide; [subst; by destruct Hp | apply IH].
Qed.

Lemma frame_get_drop (df : DataFrame) (names : list string) (l : string) :
  l ∉ names → frame_get (frame_drop df names) l = frame_get df l.
Proof. intros Hl. unfold frame_drop. by apply frame_get_filter. Qed.

Lemma frame_get_set_eq (df : DataFrame) (l : string) (col : column) :
  frame_get (frame_set df l col) l = Some col.
Proof.
  induction df as [|[l0 c0] df IH]; simpl.
  - by rewrite decide_True.
  - case_decide; subst; simpl.
    + by rewrite decide_True.
    + by rewrite decide_False.
Qed.

Lemma frame_drop_set (df : DataFrame) (l : string) (col : column) :
  frame_drop (frame_set df l col) [l] = frame_drop df [l].
Proof.
  unfold frame_drop. induction df as [|[l0 c0] df IH]; cbn [frame_set].
  - rewrite filter_cons, decide_False; [done|].
    simpl. intros Hl. apply Hl, list_elem_of_here.
  - case_decide; subst.
    + rewrite !filter_cons, !decide_False; [done|..];
        simpl; intros Hl; apply Hl, list_elem_of_here.
    + rewrite !filter_cons. cbn [fst]. case_decide; by rewrite IH.
Qed.

Lemma frame_set_same (df : DataFrame) (l : string) (col : column) :
  frame_get df l = Some col → frame_set df l col = df.
Proof.
  induction df as [|[l0 c0] df IH]; simpl; [done|].
  case_decide; subst.
  - by intros [= ->].
  - intros Hg. by rewrite IH.
Qed.

Lemma frame_drop_twice (T : DataFrame) (c : string) (col : column) :
  frame_drop (frame_drop T (categories_of c col)) [temp_name c]
  = kept T c col.
Proof.
  unfold frame_drop, kept. rewrite list_filter_filter.
  apply list_filter_iff. intros [l d]. simpl.
  rewrite list_elem_of_singleton. tauto.
Qed.

Lemma get_dummies_1d_dummies (c : string) (col : column) :
  get_dummies_1d col c "_" = dummies c col.
Proof. done. Qed.

(** ** What a call does to the store *)

Lemma lookup_snoc {A} (h : list A) (x : A) : (h ++ [x]) !! length h = Some x.
Proof. by rewrite list_lookup_middle. Qed.

Lemma insert_snoc {A} (h : list A) (x y : A) :
  <[length h := y]> (h ++ [x]) = h ++ [y].
Proof.
  replace (length h) with (length h + 0)%nat by lia.
  by rewrite insert_app_r.
Qed.

Lemma bind_inr {A B} (m : M A) (f : A → M B) (h h' : heap) (x : A) :
  m h = (inr x, h') → (m ≫= f) h = f x h'.
Proof. intros Hm. unfold mbind, M_bind. by rewrite Hm. Qed.

Lemma bind_inl {A B} (m : M A) (f : A → M B) (h h' : heap) (e : error) :
  m h = (inl e, h') → (m ≫= f) h = (inl e, h').
Proof. intros Hm. unfold mbind, M_bind. by rewrite Hm. Qed.

Section operations.
Context (h : heap) (r : ref) (T : DataFrame).
Hypothesis Hr : h !! r = Some T.

Lemma deref_run : deref r h = (inr T, h).
Proof using Hr. unfold deref. by rewrite Hr. Qed.

Lemma getitem_run (l : string) (col : column) :
  frame_get T l = Some col → getitem r l h = (inr col, h).
Proof using Hr.
  intros Hl. unfold getitem.
  rewrite (bind_inr _ _ _ _ _ deref_run). by rewrite Hl.
Qed.

Lemma getitem_raise (l : string) :
  frame_get T l = None → getitem r l h = (inl (KeyError l), h).
Proof using Hr.
  intros Hl. unfold getitem.
  rewrite (bind_inr _ _ _ _ _ deref_run). by rewrite Hl.
Qed.

Lemma drop_run (names : list string) :
  drop r names h = (inr (length h), h ++ [frame_drop T names]).
Proof using Hr.
  unfold drop. by rewrite (bind_inr _ _ _ _ _ deref_run).
Qed.

Lemma setitem_run (l : string) (col : column) :
  setitem r l col h = (inr (), <[r := frame_set T l col]> h).
Proof using Hr.
  unfold setitem. by rewrite (bind_inr _ _ _ _ _ deref_run).
Qed.

Lemma get_dummies_run (prefix l : string) (col : column) :
  frame_get T l = Some col →
  get_dummies r prefix [l] h =
    (inr (length h),
     h ++ [frame_drop T [l] ++ get_dummies_1d col prefix "_"]).
Proof using Hr.
  intros Hl. unfold get_dummies.
  rewrite (bind_inr _ _ _ _ _ deref_run).
  cbn beta. cbn [select]. rewrite Hl. unfold alloc. simpl.
  by rewrite app_nil_r.
Qed.
End operations.

Lemma onehot_encode_run (h : heap) (df : ref) (T : DataFrame)
    (c : string) (col : column) :
  h !! df = Some T → frame_get T c = Some col →
  onehot_encode df c h =
    (inr (S (length h), categories_of c col),
     h ++ [frame_set (frame_drop T (categories_of c col)) (temp_name c) col;
           kept T c col ++ dummies c col]).
Proof.
  intros Hdf Hcol. unfold onehot_encode.
  rewrite (bind_inr _ _ _ _ _ (getitem_run _ _ _ Hdf _ _ Hcol)).
  fold (category_name c). fold (categories_of c col). fold (temp_name c).
  rewrite (bind_inr _ _ _ _ _ (drop_run _ _ _ Hdf _)).
  set (T' := frame_drop T (categories_of c col)).
  assert (frame_get T' c = Some col) as Hcol'.
  { unfold T'. rewrite frame_get_drop; [done | apply column_not_category]. }
  rewrite (bind_inr _ _ _ _ _
             (getitem_run _ _ _ (lookup_snoc h T') _ _ Hcol')).
  rewrite (bind_inr _ _ _ _ _ (setitem_run _ _ _ (lookup_snoc h T') _ _)).
  rewrite insert_snoc.
  rewrite (bind_inr _ _ _ _ _
             (get_dummies_run _ _ _ (lookup_snoc h _) c _ _
                (frame_get_set_eq T' (temp_name c) col))).
  rewrite frame_drop_set. unfold T'. rewrite frame_drop_twice.
  rewrite get_dummies_1d_dummies, length_app, <-app_assoc.
  unfold mret, M_ret. simpl. do 3 f_equal. lia.
Qed.

Lemma onehot_encode_raise (h : heap) (df : ref) (T : DataFrame) (c : string) :
  h !! df = Some T → frame_get T c = None →
  onehot_encode df c h = (inl (KeyError c), h).
Proof.
  intros Hdf Hcol. unfold onehot_encode.
  by rewrite (bind_inl _ _ _ _ _ (getitem_raise _ _ _ Hdf _ Hcol)).
Qed.

Lemma encode_ok (T : DataFrame) (c : string) (col : column) :
  frame_get T c = Some col →
  encode T c = inr (kept T c col ++ dummies c col, categories_of c col).
Proof.
  intros Hcol. unfold encode.
  rewrite (onehot_encode_run [T] 0 T c col) by done.
  done.
Qed.

Lemma encode_raise (T : DataFrame) (c : string) :
  frame_get T c = None → encode T c = inl (KeyError c).
Proof.
  intros Hcol. unfold encode.
  by rewrite (onehot_encode_raise [T] 0 T c).
Qed.

(** ** The order on values *)

Global Instance value_le_total : Total value_le.
Proof.
  intros [s|m|x|m|] [t|n|y|n|]; simpl; try lia.
  - apply (total String.le).
  - destruct x, y; simpl; auto.
Qed.

Global Instance value_le_trans : Transitive value_le.
Proof.
  intros [s|m|x|m|] [t|n|y|n|] [u|k|z|k|]; simpl; try lia; try done.
  - apply (transitivity (R := String.le)).
  - destruct x, y, z; simpl; auto.
Qed.

(** ** [unique] *)

Lemma elem_of_unique (data : column) (v : value) :
  v ∈ unique data ↔ v ∈ data.
Proof.
  induction data as [|x data IH]; simpl; [done|].
  rewrite !elem_of_cons, list_elem_of_filter, IH.
  destruct (decide (v = x)); tauto.
Qed.

Lemma NoDup_unique (data : column) : NoDup (unique data).
Proof.
  induction data as [|x data IH]; simpl; [constructor|].
  constructor.
  - rewrite list_elem_of_filter. by intros [? _].
  - by apply NoDup_filter.
Qed.

Lemma index_of_lt_length (data : column) (v : value) :
  v ∈ data ↔ index_of v data < length data.
Proof.
  induction data as [|x data IH]; simpl.
  - split; [by intros ?%elem_of_nil | lia].
  - rewrite elem_of_cons. case_decide; subst.
    + split; [lia | auto].
    + rewrite IH. split; [intros [?|?]; [done | lia] | intros ?; right; lia].
Qed.

Lemma lookup_index_of (data : column) (v : value) :
  v ∈ data → data !! index_of v data = Some v.
Proof.
  induction data as [|x data IH]; simpl.
  - by intros ?%elem_of_nil.
  - case_decide; subst; [done|].
    intros [?|?]%elem_of_cons; [done | by apply IH].
Qed.

Lemma lookup_before_index_of (data : column) (v : value) (i : nat) :
  i < index_of v data → data !! i ≠ Some v.
Proof.
  revert i. induction data as [|x data IH]; intros i; simpl; [lia|].
  case_decide; [lia|].
  destruct i as [|i]; simpl; [congruence|].
  intros ?. apply IH. lia.
Qed.

Lemma StronglySorted_filter_impl {A} (R R' : relation A) (P : A → Prop)
    `{!∀ x, Decision (P x)} (l : list A) :
  (∀ a b, P a → P b → R a b → R' a b) →
  StronglySorted R l → StronglySorted R' (filter P l).
Proof.
  intros HR. induction 1 as [|a l Hl IH Ha]; [constructor|].
  rewrite filter_cons. case_decide; [|done].
  constructor; [done|].
  apply Forall_forall. intros b [Hb Hin]%list_elem_of_filter.
  rewrite Forall_forall in Ha. auto.
Qed.

Lemma unique_first_appearance (data : column) :
  StronglySorted (λ a b, index_of a data < index_of b data) (unique data).
Proof.
  induction data as [|x data IH]; cbn [unique]; constructor.
  - eapply StronglySorted_filter_impl; [|exact IH].
    intros a b Ha Hb Hab. simpl in *.
    rewrite !decide_False by congruence. lia.
  - apply Forall_forall. intros b [Hb _]%list_elem_of_filter.
    simpl. rewrite decide_True by done.
    rewrite decide_False by congruence. lia.
Qed.

(** ** [levels] and the dummy columns *)

Lemma levels_Permutation (data : column) :
  levels data ≡ₚ unique (filter (λ v, notna v = true) data).
Proof. apply merge_sort_Permutation. Qed.

Lemma elem_of_levels (data : column) (v : value) :
  v ∈ levels data ↔ v ∈ data ∧ v ≠ VNaN.
Proof.
  rewrite levels_Permutation, elem_of_unique, list_elem_of_filter.
  split.
  - intros [Hn Hin]. split; [done|]. by intros ->.
  - intros [Hin Hn]. split; [|done]. by destruct v.
Qed.

Lemma NoDup_levels (data : column) : NoDup (levels data).
Proof. rewrite levels_Permutation. apply NoDup_unique. Qed.

Lemma levels_sorted (data : column) : StronglySorted value_le (levels data).
Proof. apply StronglySorted_merge_sort; apply _. Qed.

Lemma length_indicator (level : value) (data : column) :
  length (indicator level data) = length data.
Proof. unfold indicator. apply length_fmap. Qed.

Lemma lookup_indicator (level v : value) (data : column) (r : nat) :
  data !! r = Some v →
  indicator level data !! r
  = Some (if decide (v = level) then VFloat 1 else VFloat 0).
Proof. intros Hr. unfold indicator. by rewrite list_lookup_fmap, Hr. Qed.

Lemma labels_dummies (c : string) (col : column) :
  labels (dummies c col) = category_name c <$> levels col.
Proof.
  unfold labels, dummies, get_dummies_1d. by rewrite <-list_fmap_compose.
Qed.

Lemma dummies_label_category (c : string) (col : column) (l : string) :
  l ∈ labels (dummies c col) → l ∈ categories_of c col.
Proof.
  rewrite labels_dummies. unfold categories_of.
  intros (v & -> & Hv)%list_elem_of_fmap.
  apply list_elem_of_fmap_2, elem_of_unique.
  by apply elem_of_levels in Hv as [? _].
Qed.

Lemma filter_none {A} (P : A → Prop) `{!∀ x, Decision (P x)} (l : list A) :
  Forall (λ x, ¬ P x) l → filter P l = [].
Proof.
  induction 1 as [|x l Hx Hl IH]; [done|].
  by rewrite filter_cons, decide_False.
Qed.

Lemma frame_drop_dummies (c : string) (col : column) :
  frame_drop (dummies c col) (categories_of c col) = [].
Proof.
  unfold frame_drop. apply filter_none, Forall_forall.
  intros [l d] Hin Hl. apply Hl. simpl.
  apply dummies_label_category. unfold labels.
  by apply (list_elem_of_fmap_2 fst) in Hin.
Qed.

(** A call on a frame of any store returns what [encode] says. *)
Lemma onehot_encode_encode (h : heap) (df : ref) (T : DataFrame)
    (c : string) :
  h !! df = Some T →
  match onehot_encode df c h with
  | (inl e, _) => encode T c = inl e
  | (inr (r, cats), h') =>
      ∃ T1, h' !! r = Some T1 ∧ encode T c = inr (T1, cats)
  end.
Proof.
  intros Hdf. destruct (frame_get T c) as [col|] eqn:Hcol.
  - rewrite (onehot_encode_run _ _ _ _ _ Hdf Hcol), (encode_ok _ _ _ Hcol).
    eexists. split; [|done].
    by rewrite (lookup_app_r h) by lia; replace (S (length h) - length h)
      with 1 by lia.
  - by rewrite (onehot_encode_raise _ _ _ _ Hdf Hcol), (encode_raise _ _ Hcol).
Qed.

(** ** The result frame *)

Lemma frame_get_app (df1 df2 : DataFrame) (l : string) :
  frame_get (df1 ++ df2) l
  = match frame_get df1 l with
    | Some col => Some col
    | None => frame_get df2 l
    end.
Proof.
  induction df1 as [|[l0 c0] df1 IH]; simpl; [done|].
  by case_decide.
Qed.

Lemma frame_get_kept (T : DataFrame) (c l : string) (col : column) :
  l ∉ categories_of c col → l ≠ temp_name c →
  frame_get (kept T c col) l = frame_get T l.
Proof. intros Hl Ht. unfold kept. by apply frame_get_filter. Qed.

Lemma frame_get_kept_column (T : DataFrame) (c : string) (col : column) :
  frame_get (kept T c col) c = frame_get T c.
Proof.
  apply frame_get_kept; [apply column_not_category|].
  intros Hc. by destruct (temp_name_ne c).
Qed.

Lemma kept_sublist (T : DataFrame) (c : string) (col : column) :
  kept T c col `sublist_of` T.
Proof. unfold kept. apply sublist_filter. Qed.

Lemma kept_labels (T : DataFrame) (c : string) (col : column) :
  Forall (λ p, (p.1 ∉ categories_of c col) ∧ p.1 ≠ temp_name c)
    (kept T c col).
Proof.
  apply Forall_forall. intros p Hp. unfold kept in Hp.
  by apply list_elem_of_filter in Hp as [? _].
Qed.

Lemma kept_idem (T : DataFrame) (c : string) (col : column) :
  kept (kept T c col) c col = kept T c col.
Proof.
  unfold kept. rewrite list_filter_filter.
  apply list_filter_iff. tauto.
Qed.

Lemma kept_dummies (c : string) (col : column) :
  kept (dummies c col) c col = [].
Proof.
  unfold kept. apply filter_none, Forall_forall.
  intros [l d] Hin [Hl _]. apply Hl. simpl.
  apply dummies_label_category. unfold labels.
  by apply (list_elem_of_fmap_2 fst) in Hin.
Qed.

(** * Properties of [onehot_encode] *)

(** ** The original column *)

(** C1, as the code has it: the call keeps the column it encodes.  For a
    frame [T] with a column [column_name], the frame returned by
    [onehot_encode] still has a column [column_name], with the cells it had
    in [T] (the function hands a copy of the column to [get_dummies], which
    consumes the copy). *)
Theorem C1_column_retained (T : DataFrame) (c : string) (col : column) :
  wf_frame T → frame_get T c = Some col →
  ∃ T1 cats, encode T c = inr (T1, cats) ∧ frame_get T1 c = Some col.
Proof.
  intros _ Hcol. eexists _, _. split; [by apply encode_ok|].
  by rewrite frame_get_app, frame_get_kept_column, Hcol.
Qed.

Lemma C1_column_retained_witness :
  wf_frame T_color
  ∧ frame_get T_color "color" = Some [VStr "red"; VStr "blue"; VStr "red"]
  ∧ ∃ T1 cats, encode T_color "color" = inr (T1, cats)
      ∧ frame_get T1 "color" = Some [VStr "red"; VStr "blue"; VStr "red"].
Proof.
  assert (wf_frame T_color) as Hwf by compute_done.
  split; [exact Hwf|]. split; [reflexivity|].
  apply (C1_column_retained T_color "color" _ Hwf). reflexivity.
Defined.

(** C1 as stated fails on the frame of the specification's example: the
    result of encoding ["color"] has a column ["color"]. *)
Lemma C1_counterexample :
  "color" ∈ labels T_color
  ∧ ¬ (∀ T1 cats, encode T_color "color" = inr (T1, cats) →
         "color" ∉ labels T1).
Proof.
  split; [compute_done|].
  intros H. eapply H; [reflexivity|]. compute_done.
Qed.

(** ** Order of the generated columns *)

(** C2, as the code has it: the generated columns come after the columns
    carried over from [T] (which keep their relative order and of which
    none bears a category name), and they stand in ascending order of the
    values they are named after: these are values of the encoded column,
    each once, and every value of the column that is not missing is among
    them.  The returned list of categories is in order of first appearance
    instead, so the two orders differ in general. *)
Theorem C2_indicators_sorted (T : DataFrame) (c : string) (col : column) :
  wf_frame T → frame_get T c = Some col →
  ∃ T1 cats others lv,
    encode T c = inr (T1, cats)
    ∧ labels T1 = labels others ++ ((λ v, c +:+ "_" +:+ stringify v) <$> lv)
    ∧ others `sublist_of` T
    ∧ Forall (λ l, l ∉ cats) (labels others)
    ∧ StronglySorted value_le lv
    ∧ NoDup lv
    ∧ (∀ v, v ∈ lv → v ∈ col)
    ∧ (∀ v, v ∈ col → v ≠ VNaN → v ∈ lv)
    ∧ cats = (λ v, c +:+ "_" +:+ stringify v) <$> unique col.
Proof.
  intros _ Hcol.
  exists (kept T c col ++ dummies c col), (categories_of c col),
    (kept T c col), (levels col).
  split; [by apply encode_ok|].
  split; [unfold labels at 1; by rewrite fmap_app, labels_dummies|].
  split; [apply kept_sublist|].
  split.
  { unfold labels. apply Forall_fmap.
    eapply Forall_impl; [apply kept_labels|]. by intros p [? _]. }
  split; [apply levels_sorted|].
  split; [apply NoDup_levels|].
  split; [by intros v [? _]%elem_of_levels|].
  split; [|done]. intros v Hv Hn. by apply elem_of_levels.
Qed.

Lemma C2_indicators_sorted_witness :
  wf_frame T_color
  ∧ frame_get T_color "color" = Some [VStr "red"; VStr "blue"; VStr "red"]
  ∧ ∃ T1 cats others lv,
      encode T_color "color" = inr (T1, cats)
      ∧ labels T1
        = labels others ++ ((λ v, "color" +:+ "_" +:+ stringify v) <$> lv)
      ∧ others `sublist_of` T_color
      ∧ Forall (λ l, l ∉ cats) (labels others)
      ∧ StronglySorted value_le lv
      ∧ NoDup lv
      ∧ (∀ v, v ∈ lv → v ∈ [VStr "red"; VStr "blue"; VStr "red"])
      ∧ (∀ v, v ∈ [VStr "red"; VStr "blue"; VStr "red"] → v ≠ VNaN →
              v ∈ lv)
      ∧ cats = (λ v, "color" +:+ "_" +:+ stringify v)
                 <$> unique [VStr "red"; VStr "blue"; VStr "red"].
Proof.
  assert (wf_frame T_color) as Hwf by compute_done.
  split; [exact Hwf|]. split; [reflexivity|].
  apply (C2_indicators_sorted T_color "color" _ Hwf). reflexivity.
Defined.

(** C2 as stated fails on the frame of the specification's example: the
    labels of the result do not end with the returned categories
    (["color_red"; "color_blue"]), the generated columns being
    ["color_blue"] then ["color_red"]. *)
Lemma C2_counterexample :
  "color" ∈ labels T_color
  ∧ ¬ (∀ T1 cats, encode T_color "color" = inr (T1, cats) →
         ∃ others, labels T1 = others ++ cats).
Proof.
  split; [compute_done|].
  intros H. destruct (H _ _ eq_refl) as [others Heq].
  apply (f_equal reverse) in Heq. rewrite reverse_app in Heq.
  vm_compute in Heq. discriminate Heq.
Qed.

(** ** Missing values *)

(** C3, at a frame whose encoded column has a missing value: the returned
    categories name a column ["color_nan"] for the missing value, and the
    returned frame has no such column; its only generated column is
    ["color_red"]. *)
Theorem C3_null_category_without_column :
  wf_frame T_null
  ∧ encode T_null "color"
    = inr ([("id", [VInt 1; VInt 2]);
            ("color", [VStr "red"; VNaN]);
            ("color_red", [VFloat 1; VFloat 0])],
           ["color_red"; "color_nan"]).
Proof. split; [compute_done | reflexivity]. Qed.

(** In general: no generated column stands for the missing value, and a
    row that holds it has [0.0] in every generated column. *)
Lemma null_row_all_zero (c : string) (col : column) (r : nat) :
  col !! r = Some VNaN →
  Forall (λ p, p.2 !! r = Some (VFloat 0)) (dummies c col).
Proof.
  intros Hr. unfold dummies, get_dummies_1d. apply Forall_fmap, Forall_forall.
  intros level [_ Hlevel]%elem_of_levels. simpl.
  rewrite (lookup_indicator level VNaN) by done.
  by rewrite decide_False by congruence.
Qed.

(** On the rows that hold a value, the generated columns are one-hot:
    the column of that value has [1.0], every other one has [0.0]. *)
Lemma value_row_one_hot (col : column) (r : nat) (v : value) :
  col !! r = Some v → v ≠ VNaN →
  ∃ i, levels col !! i = Some v
       ∧ ∀ j level, levels col !! j = Some level →
           indicator level col !! r
           = Some (if decide (j = i) then VFloat 1 else VFloat 0).
Proof.
  intros Hr Hv.
  assert (v ∈ levels col) as [i Hi]%list_elem_of_lookup.
  { apply elem_of_levels. split; [|done]. by eapply list_elem_of_lookup_2. }
  exists i. split; [done|]. intros j level Hj.
  rewrite (lookup_indicator level v) by done. f_equal.
  destruct (decide (j = i)) as [->|Hne].
  - rewrite decide_True; [done | congruence].
  - rewrite decide_False; [done|]. intros ->. apply Hne.
    by eapply NoDup_lookup; [apply NoDup_levels|..].
Qed.

(** C4, at a frame whose encoded column has a missing value: every cell of
    the generated columns is the float [0.0] or [1.0], and the row of the
    missing value (row 1) has [1.0] in none of them. *)
Theorem C4_null_row_not_one_hot :
  ∃ T1 cats,
    encode T_null "color" = inr (T1, cats)
    ∧ frame_get T_null "color" ≫= (.!! 1%nat) = Some VNaN
    ∧ Forall (λ p, p.1 ∈ cats →
                Forall (λ x, x = VFloat 0 ∨ x = VFloat 1) p.2
                ∧ p.2 !! 1%nat = Some (VFloat 0)) T1.
Proof.
  eexists _, _. split; [reflexivity|]. split; [reflexivity|].
  compute_done.
Qed.

(** ** Errors *)

(** C5: the call fails if and only if the frame has no column
    [column_name]; the failure is the [KeyError] of the lookup
    [df[column_name]] (the specification's [ColumnNotFoundError]), and with
    the column present the call returns a frame and the categories. *)
Theorem C5_error_iff_column_absent (T : DataFrame) (c : string) :
  wf_frame T →
  ((∃ e, encode T c = inl e) ↔ c ∉ labels T)
  ∧ (c ∉ labels T → encode T c = inl (KeyError c))
  ∧ (c ∈ labels T → ∃ T1 cats, encode T c = inr (T1, cats)).
Proof.
  intros _.
  assert (c ∈ labels T → ∃ T1 cats, encode T c = inr (T1, cats)) as Hin.
  { intros [col Hcol]%frame_get_is_Some. eexists _, _. by apply encode_ok. }
  assert (c ∉ labels T → encode T c = inl (KeyError c)) as Hout.
  { intros Hc%frame_get_None. by apply encode_raise. }
  split; [|done]. split.
  - intros [e He] Hc. destruct (Hin Hc) as (T1 & cats & Hok). congruence.
  - intros Hc. eexists. by apply Hout.
Qed.

Lemma C5_error_iff_column_absent_witness :
  wf_frame T_color
  ∧ ((∃ e, encode T_color "size" = inl e) ↔ "size" ∉ labels T_color)
  ∧ ("size" ∉ labels T_color → encode T_color "size" = inl (KeyError "size"))
  ∧ ("size" ∈ labels T_color →
     ∃ T1 cats, encode T_color "size" = inr (T1, cats)).
Proof.
  assert (wf_frame T_color) as Hwf by compute_done.
  split; [exact Hwf|].
  exact (C5_error_iff_column_absent T_color "size" Hwf).
Defined.

(** ** Encoding again *)

(** C6: the call first drops the columns that bear a category name, so
    the result is made of columns of [T] that bear none, followed by the
    generated columns; and encoding the result again, after the column has
    been assigned back under its name, succeeds and returns the same
    categories and the same frame, hence the same generated columns. *)
Theorem C6_reencode (T : DataFrame) (c : string) (col : column) :
  wf_frame T → frame_get T c = Some col →
  ∃ T1 cats1 others,
    encode T c = inr (T1, cats1)
    ∧ T1 = others ++ dummies c col
    ∧ others `sublist_of` T
    ∧ Forall (λ l, l ∉ cats1) (labels others)
    ∧ Forall (λ l, l ∈ cats1) (labels (dummies c col))
    ∧ encode (frame_set T1 c col) c = inr (T1, cats1).
Proof.
  intros _ Hcol.
  exists (kept T c col ++ dummies c col), (categories_of c col),
    (kept T c col).
  split; [by apply encode_ok|]. split; [done|].
  split; [apply kept_sublist|].
  split.
  { unfold labels. apply Forall_fmap.
    eapply Forall_impl; [apply kept_labels|]. by intros p [? _]. }
  split.
  { apply Forall_forall. apply dummies_label_category. }
  assert (frame_get (kept T c col ++ dummies c col) c = Some col) as Hcol1.
  { by rewrite frame_get_app, frame_get_kept_column, Hcol. }
  rewrite (frame_set_same _ _ _ Hcol1), (encode_ok _ _ _ Hcol1).
  unfold kept at 1. rewrite filter_app.
  fold (kept (kept T c col) c col). fold (kept (dummies c col) c col).
  by rewrite kept_idem, kept_dummies, app_nil_r.
Qed.

Lemma C6_reencode_witness :
  wf_frame T_color
  ∧ frame_get T_color "color" = Some [VStr "red"; VStr "blue"; VStr "red"]
  ∧ ∃ T1 cats1 others,
      encode T_color "color" = inr (T1, cats1)
      ∧ T1 = others ++ dummies "color" [VStr "red"; VStr "blue"; VStr "red"]
      ∧ others `sublist_of` T_color
      ∧ Forall (λ l, l ∉ cats1) (labels others)
      ∧ Forall (λ l, l ∈ cats1)
          (labels (dummies "color" [VStr "red"; VStr "blue"; VStr "red"]))
      ∧ encode (frame_set T1 "color" [VStr "red"; VStr "blue"; VStr "red"])
          "color" = inr (T1, cats1).
Proof.
  assert (wf_frame T_color) as Hwf by compute_done.
  split; [exact Hwf|]. split; [reflexivity|].
  apply (C6_reencode T_color "color" _ Hwf). reflexivity.
Defined.

(** ** The returned categories *)

(** C7: the returned categories are the names
    [column_name + "_" + str(value)] of the distinct values of the column,
    each value once, listed by increasing position of first appearance in
    the column. *)
Theorem C7_categories (T : DataFrame) (c : string) (col : column) :
  wf_frame T → frame_get T c = Some col →
  ∃ T1 values,
    encode T c = inr (T1, (λ v, c +:+ "_" +:+ stringify v) <$> values)
    ∧ NoDup values
    ∧ (∀ v, v ∈ values ↔ v ∈ col)
    ∧ StronglySorted (λ a b, index_of a col < index_of b col) values
    ∧ (∀ v, v ∈ values →
         col !! index_of v col = Some v
         ∧ ∀ i, i < index_of v col → col !! i ≠ Some v).
Proof.
  intros _ Hcol. exists (kept T c col ++ dummies c col), (unique col).
  split; [by apply encode_ok|].
  split; [apply NoDup_unique|].
  split; [intros v; apply elem_of_unique|].
  split; [apply unique_first_appearance|].
  intros v Hv. apply (proj1 (elem_of_unique col v)) in Hv. split.
  - by apply lookup_index_of.
  - intros i. apply lookup_before_index_of.
Qed.

Lemma C7_categories_witness :
  wf_frame T_color
  ∧ frame_get T_color "color" = Some [VStr "red"; VStr "blue"; VStr "red"]
  ∧ ∃ T1 values,
      encode T_color "color"
      = inr (T1, (λ v, "color" +:+ "_" +:+ stringify v) <$> values)
      ∧ NoDup values
      ∧ (∀ v, v ∈ values ↔ v ∈ [VStr "red"; VStr "blue"; VStr "red"])
      ∧ StronglySorted
          (λ a b, index_of a [VStr "red"; VStr "blue"; VStr "red"]
                  < index_of b [VStr "red"; VStr "blue"; VStr "red"]) values
      ∧ (∀ v, v ∈ values →
           [VStr "red"; VStr "blue"; VStr "red"]
             !! index_of v [VStr "red"; VStr "blue"; VStr "red"] = Some v
           ∧ ∀ i, i < index_of v [VStr "red"; VStr "blue"; VStr "red"] →
                  [VStr "red"; VStr "blue"; VStr "red"] !! i ≠ Some v).
Proof.
  assert (wf_frame T_color) as Hwf by compute_done.
  split; [exact Hwf|]. split; [reflexivity|].
  apply (C7_categories T_color "color" _ Hwf). reflexivity.
Defined.

(** ** The caller's frame *)

(** C8: the call leaves the frame object it is given, and every other
    object of the store, as they are.  When it fails the store is
    unchanged; when it succeeds the returned reference is to an object
    that did not exist before the call. *)
Theorem C8_input_not_mutated (h : heap) (df : ref) (T : DataFrame)
    (c : string) :
  h !! df = Some T → wf_frame T →
  ∃ res h',
    onehot_encode df c h = (res, h')
    ∧ h' !! df = Some T
    ∧ (∀ r X, h !! r = Some X → h' !! r = Some X)
    ∧ match res with
      | inl e => e = KeyError c ∧ (c ∉ labels T) ∧ h' = h
      | inr (r', _) => r' ≠ df ∧ h !! r' = None ∧ is_Some (h' !! r')
      end.
Proof.
  intros Hdf _. destruct (frame_get T c) as [col|] eqn:Hcol.
  - eexists _, _. split; [by eapply onehot_encode_run|].
    assert (∀ r X, h !! r = Some X →
              (h ++ [frame_set (frame_drop T (categories_of c col))
                       (temp_name c) col;
                     kept T c col ++ dummies c col]) !! r = Some X) as Hkeep.
    { intros r X Hr. by apply lookup_app_l_Some. }
    split; [by apply Hkeep|]. split; [exact Hkeep|].
    apply lookup_lt_Some in Hdf.
    split; [lia|]. split; [apply lookup_ge_None; lia|].
    apply lookup_lt_is_Some. rewrite length_app. simpl. lia.
  - eexists _, _. split; [by eapply onehot_encode_raise|].
    split; [done|]. split; [done|].
    split; [done|]. split; [by apply frame_get_None | done].
Qed.

Lemma C8_input_not_mutated_witness :
  [T_color] !! 0%nat = Some T_color
  ∧ wf_frame T_color
  ∧ ∃ res h',
      onehot_encode 0%nat "color" [T_color] = (res, h')
      ∧ h' !! 0%nat = Some T_color
      ∧ (∀ r X, [T_color] !! r = Some X → h' !! r = Some X)
      ∧ match res with
        | inl e => e = KeyError "color" ∧ ("color" ∉ labels T_color)
                   ∧ h' = [T_color]
        | inr (r', _) =>
            r' ≠ 0%nat ∧ [T_color] !! r' = None ∧ is_Some (h' !! r')
        end.
Proof.
  assert (wf_frame T_color) as Hwf by compute_done.
  split; [reflexivity|]. split; [exact Hwf|].
  exact (C8_input_not_mutated [T_color] 0%nat T_color "color" eq_refl Hwf).
Defined.

(** ** Rows *)

Lemma wf_frame_length (T : DataFrame) (l : string) (col : column) :
  wf_frame T → frame_get T l = Some col → length col = nrows T.
Proof.
  intros [_ Hall] Hl%frame_get_elem_of.
  rewrite Forall_forall in Hall. by destruct (Hall _ Hl) as [? _].
Qed.

Lemma nrows_aligned (df : DataFrame) (n : nat) :
  df ≠ [] → Forall (λ p, length p.2 = n) df → nrows df = n.
Proof. destruct df as [|[l d] df]; [done|]. by intros _ [? _]%Forall_cons. Qed.

(** C9: the returned frame has as many rows as [T], in each of its
    columns, and the rows keep their order: a column of the result that
    bears no category name has, cell for cell, the content it has in [T],
    and a generated column has in each row the indicator of that row's
    value of the encoded column. *)
Theorem C9_rows_preserved (T : DataFrame) (c : string) (col : column) :
  wf_frame T → frame_get T c = Some col →
  ∃ T1 cats,
    encode T c = inr (T1, cats)
    ∧ nrows T1 = nrows T
    ∧ Forall (λ p, length p.2 = nrows T) T1
    ∧ (∀ l data, frame_get T1 l = Some data → l ∉ cats →
         frame_get T l = Some data)
    ∧ (∀ l data, (l, data) ∈ T1 → l ∈ cats →
         ∃ level, level ∈ col ∧ l = c +:+ "_" +:+ stringify level
           ∧ ∀ r v, col !! r = Some v →
               data !! r
               = Some (if decide (v = level) then VFloat 1 else VFloat 0)).
Proof.
  intros Hwf Hcol. eexists _, _. split; [by apply encode_ok|].
  assert (Forall (λ p, length p.2 = nrows T) (kept T c col ++ dummies c col))
    as Hall.
  { apply Forall_app. split.
    - apply Forall_forall. intros p Hp%list_elem_of_filter.
      destruct Hwf as [_ Hlen]. rewrite Forall_forall in Hlen.
      by destruct (Hlen p) as [? _]; [apply Hp|].
    - unfold dummies, get_dummies_1d. apply Forall_fmap, Forall_forall. intros level _.
      simpl. rewrite length_indicator. by eapply wf_frame_length. }
  split.
  { apply nrows_aligned; [|done].
    intros Hnil. apply (f_equal (λ d, frame_get d c)) in Hnil.
    rewrite frame_get_app, frame_get_kept_column, Hcol in Hnil. done. }
  split; [done|]. split.
  - intros l data Hget Hl. rewrite frame_get_app in Hget.
    destruct (frame_get (kept T c col) l) as [d|] eqn:Hk.
    + injection Hget as ->.
      apply frame_get_elem_of in Hk as Hin.
      pose proof (kept_labels T c col) as Hlab.
      rewrite Forall_forall in Hlab. destruct (Hlab _ Hin) as [? ?].
      by rewrite frame_get_kept in Hk.
    + apply frame_get_elem_of in Hget.
      destruct Hl. apply dummies_label_category. unfold labels.
      by apply (list_elem_of_fmap_2 fst) in Hget.
  - intros l data [Hin|Hin]%elem_of_app Hl.
    + pose proof (kept_labels T c col) as Hlab.
      rewrite Forall_forall in Hlab. by destruct (Hlab _ Hin) as [? _].
    + unfold dummies, get_dummies_1d in Hin.
      apply list_elem_of_fmap in Hin as (level & [= -> ->] & Hlevel).
      exists level. split; [by apply elem_of_levels in Hlevel as [? _]|].
      split; [done|]. intros r v Hr. by apply lookup_indicator.
Qed.

Lemma C9_rows_preserved_witness :
  wf_frame T_color
  ∧ frame_get T_color "color" = Some [VStr "red"; VStr "blue"; VStr "red"]
  ∧ ∃ T1 cats,
      encode T_color "color" = inr (T1, cats)
      ∧ nrows T1 = nrows T_color
      ∧ Forall (λ p, length p.2 = nrows T_color) T1
      ∧ (∀ l data, frame_get T1 l = Some data → l ∉ cats →
           frame_get T_color l = Some data)
      ∧ (∀ l data, (l, data) ∈ T1 → l ∈ cats →
           ∃ level, level ∈ [VStr "red"; VStr "blue"; VStr "red"]
             ∧ l = "color" +:+ "_" +:+ stringify level
             ∧ ∀ r v, [VStr "red"; VStr "blue"; VStr "red"] !! r = Some v →
                 data !! r
                 = Some (if decide (v = level) then VFloat 1 else VFloat 0)).
Proof.
  assert (wf_frame T_color) as Hwf by compute_done.
  split; [exact Hwf|]. split; [reflexivity|].
  apply (C9_rows_preserved T_color "color" _ Hwf). reflexivity.
Defined.

(** ** The temporary column *)

(** C10, as the code has it: the temporary copy never reaches the result,
    and neither does a column that [T] had under the temporary name: the
    result is made of columns of [T] with other labels, followed by the
    generated columns.  A column labelled [column_name + "_Temp"] is in the
    result exactly when ["Temp"] is the string of a non-missing value of
    the encoded column, and it is then a generated column. *)
Theorem C10_temp_column (T : DataFrame) (c : string) (col : column) :
  wf_frame T → frame_get T c = Some col →
  ∃ T1 cats others,
    encode T c = inr (T1, cats)
    ∧ T1 = others ++ dummies c col
    ∧ others `sublist_of` T
    ∧ ((c +:+ "_Temp") ∉ labels others)
    ∧ ((c +:+ "_Temp") ∈ labels T1
       ↔ ∃ v, v ∈ col ∧ v ≠ VNaN ∧ stringify v = "Temp").
Proof.
  intros _ Hcol.
  exists (kept T c col ++ dummies c col), (categories_of c col),
    (kept T c col).
  split; [by apply encode_ok|]. split; [done|].
  split; [apply kept_sublist|].
  assert (temp_name c ∉ labels (kept T c col)) as Hkept.
  { unfold labels. intros ([l d] & Hl & Hin)%list_elem_of_fmap.
    simpl in Hl. subst l.
    pose proof (kept_labels T c col) as Hlab.
    rewrite Forall_forall in Hlab. by destruct (Hlab _ Hin) as [_ ?]. }
  split; [exact Hkept|].
  fold (temp_name c). unfold labels at 1.
  rewrite fmap_app, elem_of_app. fold (labels (kept T c col)).
  fold (labels (dummies c col)). rewrite labels_dummies. split.
  - intros [?|(v & Hv & Hin)%list_elem_of_fmap]; [done|].
    apply elem_of_levels in Hin as [? ?].
    exists v. split; [done|]. split; [done|].
    by apply (proj1 (category_name_temp c v)).
  - intros (v & Hin & Hv & Hs). right.
    apply list_elem_of_fmap. exists v.
    split; [symmetry; by apply (proj2 (category_name_temp c v))|].
    by apply elem_of_levels.
Qed.

Lemma C10_temp_column_witness :
  wf_frame T_size
  ∧ frame_get T_size "size" = Some [VStr "Temp"; VStr "L"]
  ∧ ∃ T1 cats others,
      encode T_size "size" = inr (T1, cats)
      ∧ T1 = others ++ dummies "size" [VStr "Temp"; VStr "L"]
      ∧ others `sublist_of` T_size
      ∧ (("size" +:+ "_Temp") ∉ labels others)
      ∧ (("size" +:+ "_Temp") ∈ labels T1
         ↔ ∃ v, v ∈ [VStr "Temp"; VStr "L"] ∧ v ≠ VNaN
                ∧ stringify v = "Temp").
Proof.
  assert (wf_frame T_size) as Hwf by compute_done.
  split; [exact Hwf|]. split; [reflexivity|].
  apply (C10_temp_column T_size "size" _ Hwf). reflexivity.
Defined.

(** C10 as stated fails on a frame whose encoded column holds the string
    ["Temp"]: the result has a column ["size_Temp"]. *)
Lemma C10_counterexample :
  "size" ∈ labels T_size
  ∧ ¬ (∀ T1 cats, encode T_size "size" = inr (T1, cats) →
         ("size" +:+ "_Temp") ∉ labels T1).
Proof.
  split; [compute_done|].
  intros H. eapply H; [reflexivity|]. compute_done.
Qed.

(** * Further properties of [onehot_encode] *)

(** ** Names of the generated columns *)

Lemma string_length_app (s t : string) :
  String.length (s +:+ t) = (String.length s + String.length t)%nat.
Proof. induction s as [|a s IH]; simpl; [done|]. by rewrite IH. Qed.

Lemma append_inj_r (s t u : string) : s +:+ u = t +:+ u → s = t.
Proof.
  revert t. induction s as [|a s IH]; intros [|b t] Heq.
  - done.
  - apply (f_equal String.length) in Heq.
    rewrite !string_length_app in Heq. simpl in Heq. lia.
  - apply (f_equal String.length) in Heq.
    rewrite !string_length_app in Heq. simpl in Heq. lia.
  - injection Heq as -> Heq. f_equal. by apply IH.
Qed.

(** values of one kind have different strings *)
Lemma stringify_inj (v w : value) :
  kind_of v = kind_of w → stringify v = stringify w → v = w.
Proof.
  destruct v as [s|m|x|m|], w as [t|n|y|n|]; simpl; try done.
  - by intros _ ->.
  - intros _ Heq. f_equal. by apply (inj pretty).
  - by destruct x, y.
  - intros _ Heq%append_inj_r. f_equal. by apply (inj pretty).
Qed.

Lemma category_name_inj (c : string) (v w : value) :
  kind_of v = kind_of w → category_name c v = category_name c w → v = w.
Proof.
  intros Hk Heq. apply stringify_inj; [done|]. unfold category_name in Heq.
  apply (inj (String.app c)) in Heq. by apply (inj (String.app "_")) in Heq.
Qed.

Lemma same_kind_elem_of (data : column) (v w : value) :
  same_kind data = true → v ∈ data → w ∈ data → v ≠ VNaN → w ≠ VNaN →
  kind_of v = kind_of w.
Proof.
  unfold same_kind. intros Hsame Hv Hw Hnv Hnw.
  assert (∀ x, x ∈ data → x ≠ VNaN →
            x ∈ filter (λ v, notna v = true) data) as Hin.
  { intros x Hx Hn. apply list_elem_of_filter. split; [by destruct x | done]. }
  apply Hin in Hv; [|done]. apply Hin in Hw; [|done].
  destruct (filter (λ v, notna v = true) data) as [|x rest];
    [by apply elem_of_nil in Hv|].
  apply Is_true_true_2, forallb_True in Hsame. rewrite Forall_forall in Hsame.
  assert (∀ y, y ∈ x :: rest → kind_of y = kind_of x) as Hall.
  { intros y [->|Hy]%elem_of_cons; [done|].
    specialize (Hsame y Hy). simpl in Hsame.
    by apply bool_decide_unpack in Hsame. }
  by rewrite (Hall v), (Hall w).
Qed.

Lemma same_kind_intro (data : column) (k : kind) :
  Forall (λ v, v ≠ VNaN → kind_of v = k) data → same_kind data = true.
Proof.
  intros Hall. unfold same_kind.
  assert (Forall (λ v, kind_of v = k) (filter (λ v, notna v = true) data))
    as Hf.
  { apply Forall_forall. intros v [Hn Hv]%list_elem_of_filter.
    rewrite Forall_forall in Hall. apply Hall; [done|]. by intros ->. }
  destruct (filter (λ v, notna v = true) data) as [|x rest]; [done|].
  apply Forall_cons in Hf as [Hx Hrest].
  apply Is_true_true_1, forallb_True.
  eapply Forall_impl; [exact Hrest|]. intros y Hy. simpl.
  apply bool_decide_pack. congruence.
Qed.

Lemma wf_frame_same_kind (T : DataFrame) (l : string) (col : column) :
  wf_frame T → frame_get T l = Some col → same_kind col = true.
Proof.
  intros [_ Hall] Hl%frame_get_elem_of.
  rewrite Forall_forall in Hall. by destruct (Hall _ Hl) as [_ ?].
Qed.

Lemma levels_same_kind (col : column) (v w : value) :
  same_kind col = true → v ∈ levels col → w ∈ levels col →
  kind_of v = kind_of w.
Proof.
  intros Hsame [Hv Hnv]%elem_of_levels [Hw Hnw]%elem_of_levels.
  by eapply same_kind_elem_of.
Qed.

Lemma NoDup_labels_dummies (c : string) (col : column) :
  same_kind col = true → NoDup (labels (dummies c col)).
Proof.
  intros Hsame. rewrite labels_dummies.
  apply NoDup_fmap_2_strong; [|apply NoDup_levels].
  intros v w Hv Hw. apply category_name_inj. by eapply levels_same_kind.
Qed.

Lemma frame_get_dummies (c : string) (col : column) (v : value) :
  same_kind col = true → v ∈ levels col →
  frame_get (dummies c col) (category_name c v) = Some (indicator v col).
Proof.
  intros Hsame Hv. unfold dummies, get_dummies_1d.
  fold (category_name c).
  assert (∀ w, w ∈ levels col → category_name c w = category_name c v →
               w = v) as Hinj.
  { intros w Hw. apply category_name_inj. by eapply levels_same_kind. }
  induction (levels col) as [|x l IH]; [by apply elem_of_nil in Hv|].
  cbn [fmap list_fmap frame_get]. case_decide as Hx.
  - apply Hinj in Hx; [by subst | apply list_elem_of_here].
  - apply elem_of_cons in Hv as [->|Hv]; [done|].
    apply IH; [done|]. intros w Hw. apply Hinj. by apply list_elem_of_further.
Qed.

Lemma frame_get_kept_category (T : DataFrame) (c l : string) (col : column) :
  l ∈ categories_of c col → frame_get (kept T c col) l = None.
Proof.
  intros Hl. apply frame_get_None. unfold labels.
  intros ([l' d] & -> & Hin)%list_elem_of_fmap.
  pose proof (kept_labels T c col) as Hlab.
  rewrite Forall_forall in Hlab. by destruct (Hlab _ Hin) as [? _].
Qed.

Lemma category_of_level (c : string) (col : column) (v : value) :
  v ∈ col → category_name c v ∈ categories_of c col.
Proof.
  intros Hv. unfold categories_of. by apply list_elem_of_fmap_2, elem_of_unique.
Qed.

Lemma kept_labels_not_category (T : DataFrame) (c : string) (col : column) :
  Forall (λ l, l ∉ categories_of c col) (labels (kept T c col)).
Proof.
  unfold labels. apply Forall_fmap.
  eapply Forall_impl; [apply kept_labels|]. by intros p [? _].
Qed.

Lemma result_aligned (T : DataFrame) (c : string) (col : column) :
  wf_frame T → frame_get T c = Some col →
  Forall (λ p, length p.2 = nrows T) (kept T c col ++ dummies c col).
Proof.
  intros Hwf Hcol. apply Forall_app. split.
  - apply Forall_forall. intros p [_ Hp]%list_elem_of_filter.
    destruct Hwf as [_ Hlen]. rewrite Forall_forall in Hlen.
    by destruct (Hlen p Hp) as [? _].
  - unfold dummies, get_dummies_1d. apply Forall_fmap, Forall_forall.
    intros level _. simpl. rewrite length_indicator.
    by eapply wf_frame_length.
Qed.

Lemma result_nrows (T : DataFrame) (c : string) (col : column) :
  wf_frame T → frame_get T c = Some col →
  nrows (kept T c col ++ dummies c col) = nrows T.
Proof.
  intros Hwf Hcol. apply nrows_aligned; [|by apply result_aligned].
  intros Hnil. apply (f_equal (λ d, frame_get d c)) in Hnil.
  rewrite frame_get_app, frame_get_kept_column, Hcol in Hnil. done.
Qed.

Lemma same_kind_indicator (level : value) (data : column) :
  same_kind (indicator level data) = true.
Proof.
  apply (same_kind_intro _ KFloat). unfold indicator.
  apply Forall_fmap, Forall_forall. intros v _ _. simpl. by case_decide.
Qed.

(** ** The result is a frame of the model *)

(** X1: the result of a call on a well-formed frame is well formed: its
    labels are pairwise distinct (the generated columns included), all its
    columns have the same number of rows, and each holds one kind of
    value. *)
Theorem X1_result_well_formed (T : DataFrame) (c : string) (col : column) :
  wf_frame T → frame_get T c = Some col →
  ∃ T1 cats, encode T c = inr (T1, cats) ∧ wf_frame T1.
Proof.
  intros Hwf Hcol. eexists _, _. split; [by apply encode_ok|].
  pose proof (wf_frame_same_kind _ _ _ Hwf Hcol) as Hsame.
  split.
  - unfold labels. rewrite fmap_app. apply NoDup_app.
    split; [|split].
    + destruct Hwf as [Hnd _].
      eapply sublist_NoDup; [exact Hnd|].
      apply fmap_sublist, kept_sublist.
    + intros l Hl Hd.
      pose proof (kept_labels_not_category T c col) as Hk.
      rewrite Forall_forall in Hk. apply (Hk l Hl).
      by apply dummies_label_category.
    + by apply NoDup_labels_dummies.
  - rewrite (result_nrows _ _ _ Hwf Hcol).
    pose proof (result_aligned _ _ _ Hwf Hcol) as Hlen.
    rewrite Forall_forall in Hlen. apply Forall_forall. intros p Hp.
    split; [by apply Hlen|].
    apply elem_of_app in Hp as [[_ Hp]%list_elem_of_filter|Hp].
    + destruct Hwf as [_ Hall]. rewrite Forall_forall in Hall.
      by destruct (Hall p Hp) as [_ ?].
    + unfold dummies, get_dummies_1d in Hp.
      apply list_elem_of_fmap in Hp as (level & -> & _).
      apply same_kind_indicator.
Qed.

Lemma X1_result_well_formed_witness :
  wf_frame T_stale
  ∧ frame_get T_stale "color" = Some [VStr "red"; VStr "blue"; VStr "red"]
  ∧ ∃ T1 cats, encode T_stale "color" = inr (T1, cats) ∧ wf_frame T1.
Proof.
  assert (wf_frame T_stale) as Hwf by compute_done.
  split; [exact Hwf|]. split; [reflexivity|].
  apply (X1_result_well_formed T_stale "color"
           [VStr "red"; VStr "blue"; VStr "red"] Hwf).
  reflexivity.
Defined.

(** ** Reading a generated column by its name *)

(** X2: for a value that the column holds, the result can be indexed by
    the value's category name, and the column found there is the value's
    indicator: [1.0] on the rows that hold the value, [0.0] on the others,
    whatever [T] had under that name. *)
Theorem X2_indicator_by_name (T : DataFrame) (c : string) (col : column)
    (v : value) :
  wf_frame T → frame_get T c = Some col → v ∈ col → v ≠ VNaN →
  ∃ T1 cats,
    encode T c = inr (T1, cats)
    ∧ (c +:+ "_" +:+ stringify v) ∈ cats
    ∧ frame_get T1 (c +:+ "_" +:+ stringify v)
      = Some ((λ x, if decide (x = v) then VFloat 1 else VFloat 0) <$> col).
Proof.
  intros Hwf Hcol Hv Hn. eexists _, _. split; [by apply encode_ok|].
  fold (category_name c v).
  split; [by apply category_of_level|].
  rewrite frame_get_app, frame_get_kept_category
    by (by apply category_of_level).
  apply frame_get_dummies; [by eapply wf_frame_same_kind|].
  by apply elem_of_levels.
Qed.

Lemma X2_indicator_by_name_witness :
  wf_frame T_stale
  ∧ frame_get T_stale "color" = Some [VStr "red"; VStr "blue"; VStr "red"]
  ∧ VStr "red" ∈ [VStr "red"; VStr "blue"; VStr "red"]
  ∧ VStr "red" ≠ VNaN
  ∧ ∃ T1 cats,
      encode T_stale "color" = inr (T1, cats)
      ∧ ("color" +:+ "_" +:+ stringify (VStr "red")) ∈ cats
      ∧ frame_get T1 ("color" +:+ "_" +:+ stringify (VStr "red"))
        = Some ((λ x, if decide (x = VStr "red") then VFloat 1 else VFloat 0)
                  <$> [VStr "red"; VStr "blue"; VStr "red"]).
Proof.
  assert (wf_frame T_stale) as Hwf by compute_done.
  assert (VStr "red" ∈ [VStr "red"; VStr "blue"; VStr "red"]) as Hin
    by compute_done.
  split; [exact Hwf|]. split; [reflexivity|]. split; [exact Hin|].
  split; [discriminate|].
  apply (X2_indicator_by_name T_stale "color" _ _ Hwf eq_refl Hin).
  discriminate.
Defined.

(** ** Columns without missing values *)

Lemma filter_all {A} (P : A → Prop) `{!∀ x, Decision (P x)} (l : list A) :
  Forall P l → filter P l = l.
Proof.
  induction 1 as [|x l Hx Hl IH]; [done|].
  by rewrite filter_cons, decide_True, IH.
Qed.

Lemma levels_no_missing (col : column) :
  VNaN ∉ col → levels col ≡ₚ unique col.
Proof.
  intros Hn. rewrite levels_Permutation, filter_all; [done|].
  apply Forall_forall. intros v Hv. by destruct v.
Qed.

(** X3: when the column has no missing value, the returned categories
    are pairwise distinct, they are the labels of the generated columns up
    to their order, and the result has a column under each of them. *)
Theorem X3_categories_are_generated_labels (T : DataFrame) (c : string)
    (col : column) :
  wf_frame T → frame_get T c = Some col → VNaN ∉ col →
  ∃ T1 cats others gen,
    encode T c = inr (T1, cats)
    ∧ T1 = others ++ gen
    ∧ Forall (λ l, l ∉ cats) (labels others)
    ∧ labels gen ≡ₚ cats
    ∧ NoDup cats
    ∧ Forall (λ l, is_Some (frame_get T1 l)) cats.
Proof.
  intros Hwf Hcol Hn.
  exists (kept T c col ++ dummies c col), (categories_of c col),
    (kept T c col), (dummies c col).
  pose proof (wf_frame_same_kind _ _ _ Hwf Hcol) as Hsame.
  assert (labels (dummies c col) ≡ₚ categories_of c col) as Hperm.
  { rewrite labels_dummies. unfold categories_of.
    by rewrite levels_no_missing. }
  split; [by apply encode_ok|]. split; [done|].
  split; [apply kept_labels_not_category|].
  split; [done|]. split.
  - rewrite <-Hperm. by apply NoDup_labels_dummies.
  - apply Forall_forall. intros l Hl. apply frame_get_is_Some.
    unfold labels. rewrite fmap_app, elem_of_app. right.
    fold (labels (dummies c col)). by rewrite Hperm.
Qed.

Lemma X3_categories_are_generated_labels_witness :
  wf_frame T_stale
  ∧ frame_get T_stale "color" = Some [VStr "red"; VStr "blue"; VStr "red"]
  ∧ (VNaN ∉ [VStr "red"; VStr "blue"; VStr "red"])
  ∧ ∃ T1 cats others gen,
      encode T_stale "color" = inr (T1, cats)
      ∧ T1 = others ++ gen
      ∧ Forall (λ l, l ∉ cats) (labels others)
      ∧ labels gen ≡ₚ cats
      ∧ NoDup cats
      ∧ Forall (λ l, is_Some (frame_get T1 l)) cats.
Proof.
  assert (wf_frame T_stale) as Hwf by compute_done.
  assert (VNaN ∉ [VStr "red"; VStr "blue"; VStr "red"]) as Hn
    by compute_done.
  split; [exact Hwf|]. split; [reflexivity|]. split; [exact Hn|].
  exact (X3_categories_are_generated_labels T_stale "color" _ Hwf eq_refl Hn).
Defined.

(** ** Rows of the generated columns *)

(** X4: on a row that holds a value, the generated columns are one-hot:
    the column named after the value has [1.0] in that row and every other
    generated column has [0.0]. *)
Theorem X4_one_hot_on_values (T : DataFrame) (c : string) (col : column)
    (r : nat) (v : value) :
  wf_frame T → frame_get T c = Some col → col !! r = Some v → v ≠ VNaN →
  ∃ T1 cats others gen i,
    encode T c = inr (T1, cats)
    ∧ T1 = others ++ gen
    ∧ Forall (λ l, l ∉ cats) (labels others)
    ∧ Forall (λ l, l ∈ cats) (labels gen)
    ∧ labels gen !! i = Some (c +:+ "_" +:+ stringify v)
    ∧ ∀ j l data, gen !! j = Some (l, data) →
        data !! r = Some (if decide (j = i) then VFloat 1 else VFloat 0).
Proof.
  intros _ Hcol Hr Hv.
  destruct (value_row_one_hot col r v Hr Hv) as (i & Hi & Hrow).
  exists (kept T c col ++ dummies c col), (categories_of c col),
    (kept T c col), (dummies c col), i.
  split; [by apply encode_ok|]. split; [done|].
  split; [apply kept_labels_not_category|].
  split; [apply Forall_forall, dummies_label_category|].
  split.
  - by rewrite labels_dummies, list_lookup_fmap, Hi.
  - intros j l data Hj. unfold dummies, get_dummies_1d in Hj.
    rewrite list_lookup_fmap in Hj.
    destruct (levels col !! j) as [level|] eqn:Hlevel; [|done].
    injection Hj as <- <-. by apply Hrow.
Qed.

Lemma X4_one_hot_on_values_witness :
  wf_frame T_null
  ∧ frame_get T_null "color" = Some [VStr "red"; VNaN]
  ∧ [VStr "red"; VNaN] !! 0%nat = Some (VStr "red")
  ∧ VStr "red" ≠ VNaN
  ∧ ∃ T1 cats others gen i,
      encode T_null "color" = inr (T1, cats)
      ∧ T1 = others ++ gen
      ∧ Forall (λ l, l ∉ cats) (labels others)
      ∧ Forall (λ l, l ∈ cats) (labels gen)
      ∧ labels gen !! i = Some ("color" +:+ "_" +:+ stringify (VStr "red"))
      ∧ ∀ j l data, gen !! j = Some (l, data) →
          data !! 0%nat
          = Some (if decide (j = i) then VFloat 1 else VFloat 0).
Proof.
  assert (wf_frame T_null) as Hwf by compute_done.
  split; [exact Hwf|]. split; [reflexivity|]. split; [reflexivity|].
  split; [discriminate|].
  apply (X4_one_hot_on_values T_null "color" _ 0%nat _ Hwf eq_refl eq_refl).
  discriminate.
Defined.

(** X5: on a row whose value is missing, every generated column has
    [0.0]. *)
Theorem X5_missing_row_all_zero (T : DataFrame) (c : string) (col : column)
    (r : nat) :
  wf_frame T → frame_get T c = Some col → col !! r = Some VNaN →
  ∃ T1 cats,
    encode T c = inr (T1, cats)
    ∧ ∀ l data, (l, data) ∈ T1 → l ∈ cats → data !! r = Some (VFloat 0).
Proof.
  intros _ Hcol Hr. eexists _, _. split; [by apply encode_ok|].
  intros l data [Hin|Hin]%elem_of_app Hl.
  - pose proof (kept_labels T c col) as Hlab.
    rewrite Forall_forall in Hlab. by destruct (Hlab _ Hin) as [? _].
  - pose proof (null_row_all_zero c col r Hr) as Hzero.
    rewrite Forall_forall in Hzero. apply (Hzero _ Hin).
Qed.

Lemma X5_missing_row_all_zero_witness :
  wf_frame T_null
  ∧ frame_get T_null "color" = Some [VStr "red"; VNaN]
  ∧ [VStr "red"; VNaN] !! 1%nat = Some VNaN
  ∧ ∃ T1 cats,
      encode T_null "color" = inr (T1, cats)
      ∧ ∀ l data, (l, data) ∈ T1 → l ∈ cats →
          data !! 1%nat = Some (VFloat 0).
Proof.
  assert (wf_frame T_null) as Hwf by compute_done.
  split; [exact Hwf|]. split; [reflexivity|]. split; [reflexivity|].
  exact (X5_missing_row_all_zero T_null "color" _ 1%nat Hwf eq_refl eq_refl).
Defined.

(** X6: when the column holds [NaN] and none of its other values is
    printed ["nan"], the returned categories contain the name
    [column_name + "_nan"] and the result has no column of that name, even
    when [T] had one. *)
Theorem X6_nan_category_without_column (T : DataFrame) (c : string)
    (col : column) :
  wf_frame T → frame_get T c = Some col → VNaN ∈ col →
  (∀ v, v ∈ col → v ≠ VNaN → stringify v ≠ "nan") →
  ∃ T1 cats,
    encode T c = inr (T1, cats)
    ∧ (c +:+ "_nan") ∈ cats
    ∧ (c +:+ "_nan") ∉ labels T1.
Proof.
  intros _ Hcol Hnan Hstr. eexists _, _. split; [by apply encode_ok|].
  change (c +:+ "_nan") with (category_name c VNaN).
  assert (category_name c VNaN ∈ categories_of c col) as Hcat
    by by apply category_of_level.
  split; [done|].
  unfold labels. rewrite fmap_app, elem_of_app. intros [Hin|Hin].
  - pose proof (kept_labels_not_category T c col) as Hk.
    rewrite Forall_forall in Hk. by apply (Hk _ Hin).
  - fold (labels (dummies c col)) in Hin. rewrite labels_dummies in Hin.
    apply list_elem_of_fmap in Hin as (w & Heq & [Hw Hn]%elem_of_levels).
    apply (Hstr w Hw Hn). unfold category_name in Heq.
    apply (inj (String.app c)) in Heq.
    by apply (inj (String.app "_")) in Heq.
Qed.

Lemma X6_nan_category_without_column_witness :
  wf_frame T_null
  ∧ frame_get T_null "color" = Some [VStr "red"; VNaN]
  ∧ VNaN ∈ [VStr "red"; VNaN]
  ∧ (∀ v, v ∈ [VStr "red"; VNaN] → v ≠ VNaN → stringify v ≠ "nan")
  ∧ ∃ T1 cats,
      encode T_null "color" = inr (T1, cats)
      ∧ ("color" +:+ "_nan") ∈ cats
      ∧ ("color" +:+ "_nan") ∉ labels T1.
Proof.
  assert (wf_frame T_null) as Hwf by compute_done.
  assert (VNaN ∈ [VStr "red"; VNaN]) as Hin by compute_done.
  assert (∀ v, v ∈ [VStr "red"; VNaN] → v ≠ VNaN → stringify v ≠ "nan")
    as Hstr.
  { intros v Hv Hn. apply elem_of_cons in Hv as [->|Hv]; [discriminate|].
    apply list_elem_of_singleton in Hv. by destruct Hn. }
  split; [exact Hwf|]. split; [reflexivity|]. split; [exact Hin|].
  split; [exact Hstr|].
  exact (X6_nan_category_without_column T_null "color" _ Hwf eq_refl
           Hin Hstr).
Defined.

(** ** Edge cases of the column *)

Lemma unique_constant (col : column) (v : value) :
  col ≠ [] → Forall (λ x, x = v) col → unique col = [v].
Proof.
  intros Hne Hall. induction Hall as [|x l -> Hl IH]; [done|].
  cbn [unique]. f_equal. destruct l as [|y l]; [done|].
  rewrite IH by done. by rewrite filter_cons, decide_False by (by intros ?).
Qed.

Lemma levels_all_missing (col : column) :
  Forall (λ x, x = VNaN) col → levels col = [].
Proof.
  intros Hall. unfold levels. rewrite filter_none; [done|].
  eapply Forall_impl; [exact Hall|]. by intros x ->.
Qed.

Lemma levels_constant (col : column) (v : value) :
  col ≠ [] → v ≠ VNaN → Forall (λ x, x = v) col → levels col = [v].
Proof.
  intros Hne Hv Hall. unfold levels. rewrite filter_all.
  - by rewrite (unique_constant col v).
  - eapply Forall_impl; [exact Hall|]. intros x ->. by destruct v.
Qed.

Lemma indicator_constant (col : column) (v : value) :
  Forall (λ x, x = v) col → indicator v col = replicate (length col) (VFloat 1).
Proof.
  unfold indicator. induction 1 as [|x l -> Hl IH]; [done|].
  cbn [fmap list_fmap length replicate]. rewrite decide_True by done.
  f_equal. exact IH.
Qed.

(** X7: on a frame without rows the call generates no column and returns
    no category; the result is [T] without the column named
    [column_name + "_Temp"], if it had one. *)
Theorem X7_no_rows (T : DataFrame) (c : string) :
  wf_frame T → frame_get T c = Some [] →
  encode T c = inr (filter (λ p, p.1 ≠ c +:+ "_Temp") T, []).
Proof.
  intros _ Hcol. rewrite (encode_ok _ _ _ Hcol).
  unfold dummies, get_dummies_1d, categories_of, kept. cbn.
  rewrite app_nil_r. do 2 f_equal.
  apply list_filter_iff. intros [l d]. unfold temp_name. simpl.
  split; [by intros [_ ?] | intros ?; split; [apply not_elem_of_nil | done]].
Qed.

Lemma X7_no_rows_witness :
  wf_frame T_empty
  ∧ frame_get T_empty "color" = Some []
  ∧ encode T_empty "color"
    = inr (filter (λ p, p.1 ≠ "color" +:+ "_Temp") T_empty, []).
Proof.
  assert (wf_frame T_empty) as Hwf by compute_done.
  split; [exact Hwf|]. split; [reflexivity|].
  exact (X7_no_rows T_empty "color" Hwf eq_refl).
Defined.

(** X8: when every row of the column holds [NaN], the call generates no
    column; it returns the single category [column_name + "_nan"] and the
    frame [T] without the columns named [column_name + "_nan"] and
    [column_name + "_Temp"]. *)
Theorem X8_all_nan (T : DataFrame) (c : string) (col : column) :
  wf_frame T → frame_get T c = Some col →
  col ≠ [] → Forall (λ x, x = VNaN) col →
  encode T c
  = inr (filter (λ p, p.1 ≠ c +:+ "_nan" ∧ p.1 ≠ c +:+ "_Temp") T,
         [c +:+ "_nan"]).
Proof.
  intros _ Hcol Hne Hall. rewrite (encode_ok _ _ _ Hcol).
  assert (categories_of c col = [c +:+ "_nan"]) as Hcats.
  { unfold categories_of. by rewrite (unique_constant col VNaN Hne Hall). }
  assert (dummies c col = []) as Hgen.
  { unfold dummies, get_dummies_1d. by rewrite (levels_all_missing col Hall). }
  rewrite Hgen, app_nil_r, Hcats. do 2 f_equal.
  unfold kept. apply list_filter_iff. intros [l d]. unfold temp_name. simpl.
  by rewrite Hcats, list_elem_of_singleton.
Qed.

Lemma X8_all_nan_witness :
  wf_frame T_missing
  ∧ frame_get T_missing "color" = Some [VNaN; VNaN]
  ∧ [VNaN; VNaN] ≠ []
  ∧ Forall (λ x, x = VNaN) [VNaN; VNaN]
  ∧ encode T_missing "color"
    = inr (filter (λ p, p.1 ≠ "color" +:+ "_nan"
                        ∧ p.1 ≠ "color" +:+ "_Temp") T_missing,
           ["color" +:+ "_nan"]).
Proof.
  assert (wf_frame T_missing) as Hwf by compute_done.
  assert (Forall (λ x, x = VNaN) [VNaN; VNaN]) as Hall by compute_done.
  split; [exact Hwf|]. split; [reflexivity|]. split; [discriminate|].
  split; [exact Hall|].
  apply (X8_all_nan T_missing "color" _ Hwf eq_refl); [discriminate|].
  exact Hall.
Defined.

(** X9: when every row of the column holds the same value, the call
    returns the single category of that value and generates one column,
    which has [1.0] in every row. *)
Theorem X9_single_value (T : DataFrame) (c : string) (col : column)
    (v : value) :
  wf_frame T → frame_get T c = Some col →
  col ≠ [] → v ≠ VNaN → Forall (λ x, x = v) col →
  encode T c
  = inr (filter (λ p, p.1 ≠ c +:+ "_" +:+ stringify v
                      ∧ p.1 ≠ c +:+ "_Temp") T
         ++ [(c +:+ "_" +:+ stringify v,
              replicate (length col) (VFloat 1))],
         [c +:+ "_" +:+ stringify v]).
Proof.
  intros _ Hcol Hne Hv Hall. rewrite (encode_ok _ _ _ Hcol).
  assert (categories_of c col = [c +:+ "_" +:+ stringify v]) as Hcats.
  { unfold categories_of. by rewrite (unique_constant col v Hne Hall). }
  assert (dummies c col
          = [(c +:+ "_" +:+ stringify v, replicate (length col) (VFloat 1))])
    as Hgen.
  { unfold dummies, get_dummies_1d.
    rewrite (levels_constant col v Hne Hv Hall). cbn [fmap list_fmap].
    by rewrite (indicator_constant col v Hall). }
  rewrite Hgen, Hcats. do 3 f_equal.
  unfold kept. apply list_filter_iff. intros [l d]. unfold temp_name. simpl.
  by rewrite Hcats, list_elem_of_singleton.
Qed.

Lemma X9_single_value_witness :
  wf_frame T_one
  ∧ frame_get T_one "color" = Some [VStr "red"; VStr "red"]
  ∧ [VStr "red"; VStr "red"] ≠ []
  ∧ VStr "red" ≠ VNaN
  ∧ Forall (λ x, x = VStr "red") [VStr "red"; VStr "red"]
  ∧ encode T_one "color"
    = inr (filter (λ p, p.1 ≠ "color" +:+ "_" +:+ stringify (VStr "red")
                        ∧ p.1 ≠ "color" +:+ "_Temp") T_one
           ++ [("color" +:+ "_" +:+ stringify (VStr "red"),
                replicate (length [VStr "red"; VStr "red"]) (VFloat 1))],
           ["color" +:+ "_" +:+ stringify (VStr "red")]).
Proof.
  assert (wf_frame T_one) as Hwf by compute_done.
  assert (Forall (λ x, x = VStr "red") [VStr "red"; VStr "red"]) as Hall
    by compute_done.
  split; [exact Hwf|]. split; [reflexivity|]. split; [discriminate|].
  split; [discriminate|]. split; [exact Hall|].
  apply (X9_single_value T_one "color" _ _ Hwf eq_refl);
    [discriminate | discriminate | exact Hall].
Defined.

(** ** The other columns *)

(** X10: indexing the result by a label that is not a category gives what
    [T] has under that label, except for the label
    [column_name + "_Temp"], which the result never has outside the
    generated columns. *)
Theorem X10_other_columns (T : DataFrame) (c : string) (col : column) :
  wf_frame T → frame_get T c = Some col →
  ∃ T1 cats,
    encode T c = inr (T1, cats)
    ∧ ∀ l, l ∉ cats →
        frame_get T1 l
        = if decide (l = c +:+ "_Temp") then None else frame_get T l.
Proof.
  intros _ Hcol. eexists _, _. split; [by apply encode_ok|].
  intros l Hl. rewrite frame_get_app.
  assert (frame_get (dummies c col) l = None) as ->.
  { apply frame_get_None. intros Hin. by apply Hl, dummies_label_category. }
  fold (temp_name c). case_decide as Ht.
  - assert (frame_get (kept T c col) l = None) as ->; [|done].
    apply frame_get_None. unfold labels.
    intros ([l' d] & -> & Hin)%list_elem_of_fmap.
    pose proof (kept_labels T c col) as Hlab.
    rewrite Forall_forall in Hlab. by destruct (Hlab _ Hin) as [_ ?].
  - rewrite frame_get_kept by done. by destruct (frame_get T l).
Qed.

Lemma X10_other_columns_witness :
  wf_frame T_stale
  ∧ frame_get T_stale "color" = Some [VStr "red"; VStr "blue"; VStr "red"]
  ∧ ∃ T1 cats,
      encode T_stale "color" = inr (T1, cats)
      ∧ ∀ l, l ∉ cats →
          frame_get T1 l
          = if decide (l = "color" +:+ "_Temp") then None
            else frame_get T_stale l.
Proof.
  assert (wf_frame T_stale) as Hwf by compute_done.
  split; [exact Hwf|]. split; [reflexivity|].
  exact (X10_other_columns T_stale "color" _ Hwf eq_refl).
Defined.

Lemma frame_get_set_ne (df : DataFrame) (l l' : string) (x : column) :
  l ≠ l' → frame_get (frame_set df l x) l' = frame_get df l'.
Proof.
  intros Hne. induction df as [|[l0 c0] df IH]; simpl.
  - by rewrite decide_False.
  - case_decide as Hl; subst; simpl.
    + by rewrite !decide_False.
    + case_decide; [done | apply IH].
Qed.

Lemma filter_frame_set (P : string * column → Prop) `{!∀ p, Decision (P p)}
    (df : DataFrame) (l : string) (x : column) :
  (∀ d, ¬ P (l, d)) → filter P (frame_set df l x) = filter P df.
Proof.
  intros HP. induction df as [|[l0 c0] df IH]; cbn [frame_set].
  - by rewrite filter_cons, decide_False.
  - case_decide; subst.
    + by rewrite !filter_cons, !decide_False.
    + rewrite !filter_cons. case_decide; by rewrite IH.
Qed.

(** X11: what [T] holds under a category name or under
    [column_name + "_Temp"], and whether it has such columns at all, has no
    effect on the call: assigning any column under such a label before the
    call gives the same frame and the same categories. *)
Theorem X11_stale_columns_ignored (T : DataFrame) (c : string)
    (col : column) :
  wf_frame T → frame_get T c = Some col →
  ∃ T1 cats,
    encode T c = inr (T1, cats)
    ∧ ∀ l x, l = c +:+ "_Temp" ∨ l ∈ cats →
        encode (frame_set T l x) c = inr (T1, cats).
Proof.
  intros _ Hcol. eexists _, _. split; [by apply encode_ok|].
  intros l x Hl. fold (temp_name c) in Hl.
  assert (l ≠ c) as Hne.
  { intros ->. destruct Hl as [Hl|Hl].
    - by destruct (temp_name_ne c).
    - by destruct (column_not_category c col). }
  assert (frame_get (frame_set T l x) c = Some col) as Hcol'
    by by rewrite frame_get_set_ne.
  rewrite (encode_ok _ _ _ Hcol'). do 3 f_equal.
  unfold kept. apply filter_frame_set. intros d [Hc Ht]. simpl in *.
  by destruct Hl.
Qed.

Lemma X11_stale_columns_ignored_witness :
  wf_frame T_color
  ∧ frame_get T_color "color" = Some [VStr "red"; VStr "blue"; VStr "red"]
  ∧ ∃ T1 cats,
      encode T_color "color" = inr (T1, cats)
      ∧ ∀ l x, l = "color" +:+ "_Temp" ∨ l ∈ cats →
          encode (frame_set T_color l x) "color" = inr (T1, cats).
Proof.
  assert (wf_frame T_color) as Hwf by compute_done.
  split; [exact Hwf|]. split; [reflexivity|].
  exact (X11_stale_columns_ignored T_color "color" _ Hwf eq_refl).
Defined.

(** ** Calling again in the same store *)

Lemma result_fixed (T : DataFrame) (c : string) (col : column) :
  kept (kept T c col ++ dummies c col) c col ++ dummies c col
  = kept T c col ++ dummies c col.
Proof.
  unfold kept at 1. rewrite filter_app.
  fold (kept (kept T c col) c col). fold (kept (dummies c col) c col).
  by rewrite kept_idem, kept_dummies, app_nil_r.
Qed.

(** X12: a second call, on the reference the first call returned, gives
    the same categories and a new object equal to the first result; the
    first result and the caller's frame are left as they are. *)
Theorem X12_call_again (h : heap) (df : ref) (T : DataFrame) (c : string)
    (col : column) :
  h !! df = Some T → wf_frame T → frame_get T c = Some col →
  ∃ r1 r2 cats h1 h2 T1,
    onehot_encode df c h = (inr (r1, cats), h1)
    ∧ onehot_encode r1 c h1 = (inr (r2, cats), h2)
    ∧ r1 ≠ r2
    ∧ h1 !! r1 = Some T1
    ∧ h2 !! r1 = Some T1
    ∧ h2 !! r2 = Some T1
    ∧ h2 !! df = Some T.
Proof.
  intros Hdf _ Hcol.
  set (T1 := kept T c col ++ dummies c col).
  set (X := frame_set (frame_drop T (categories_of c col)) (temp_name c) col).
  set (X1 := frame_set (frame_drop T1 (categories_of c col))
               (temp_name c) col).
  set (h1 := h ++ [X; T1]).
  assert (h1 !! S (length h) = Some T1) as Hr1.
  { unfold h1. rewrite lookup_app_r by lia.
    by replace (S (length h) - length h) with 1 by lia. }
  assert (frame_get T1 c = Some col) as Hcol1.
  { unfold T1. by rewrite frame_get_app, frame_get_kept_column, Hcol. }
  exists (S (length h)), (S (length h1)), (categories_of c col), h1,
    (h1 ++ [X1; T1]), T1.
  split; [by apply onehot_encode_run|].
  split.
  { assert (kept T1 c col ++ dummies c col = T1) as Hfix
      by apply result_fixed.
    by rewrite (onehot_encode_run _ _ _ _ _ Hr1 Hcol1), Hfix. }
  assert (length h1 = S (S (length h))) as Hlen.
  { unfold h1. rewrite length_app. simpl. lia. }
  split; [lia|]. split; [done|].
  split; [by apply lookup_app_l_Some|].
  split.
  - rewrite lookup_app_r by lia.
    by replace (S (length h1) - length h1) with 1 by lia.
  - apply lookup_app_l_Some. unfold h1. by apply lookup_app_l_Some.
Qed.

Lemma X12_call_again_witness :
  [T_color] !! 0%nat = Some T_color
  ∧ wf_frame T_color
  ∧ frame_get T_color "color" = Some [VStr "red"; VStr "blue"; VStr "red"]
  ∧ ∃ r1 r2 cats h1 h2 T1,
      onehot_encode 0%nat "color" [T_color] = (inr (r1, cats), h1)
      ∧ onehot_encode r1 "color" h1 = (inr (r2, cats), h2)
      ∧ r1 ≠ r2
      ∧ h1 !! r1 = Some T1
      ∧ h2 !! r1 = Some T1
      ∧ h2 !! r2 = Some T1
      ∧ h2 !! 0%nat = Some T_color.
Proof.
  assert (wf_frame T_color) as Hwf by compute_done.
  split; [reflexivity|]. split; [exact Hwf|]. split; [reflexivity|].
  exact (X12_call_again [T_color] 0%nat T_color "color" _ eq_refl Hwf
           eq_refl).
Defined.
